(** * Prepr connector (src/prepr/src/index.ts): a shallow embedding

    The connector pulls articles from the Prepr GraphQL API page by page,
    flattens each article's content blocks into one HTML string, hands the
    resulting nodes to the host's [model.create], and records the time of
    the sync in the host's cache under the key [lastSync].

    Pure code ([reduce], [map], template literals) is embedded as Rocq
    functions.  The host and the network are a [World] that is threaded
    through a small state-and-exception monad; every call that leaves the
    module (a POST, [model.create], [model.delete], [cache.get],
    [cache.set]) is appended to the world's trace. *)

From Stdlib Require Import ZArith Ascii DecimalString.
From stdpp Require Import base tactics option list strings gmap.

Local Open Scope Z_scope.

(** ** Strings and numbers as JavaScript renders them *)

Module Js.

(** The one-character string holding a double quote (code 34) and the
    line feed (code 10) of the template literals. *)
Definition dquote : string := String "034"%char EmptyString.
Definition newline : string := String "010"%char EmptyString.

(** [`${n}`] for an integer-valued number: decimal digits, with a leading
    minus sign below zero. *)
Definition number_toString (n : Z) : string :=
  NilZero.string_of_int (Z.to_int n).

(** [String.prototype.toLowerCase] on one code unit of the ASCII range:
    [A]..[Z] (65..90) move to [a]..[z]; every other unit is kept. *)
Definition toLowerCase_ascii (c : ascii) : ascii :=
  let n := N_of_ascii c in
  if ((65 <=? n) && (n <=? 90))%N then ascii_of_N (n + 32) else c.

Fixpoint toLowerCase (s : string) : string :=
  match s with
  | EmptyString => EmptyString
  | String c s' => String (toLowerCase_ascii c) (toLowerCase s')
  end.

(** [Array.prototype.reduce] with an initial value: a left fold whose
    callback also receives the index of the current element. *)
Fixpoint reduce_from {A B : Type} (f : B -> A -> nat -> B)
    (i : nat) (l : list A) (acc : B) : B :=
  match l with
  | [] => acc
  | x :: l' => reduce_from f (S i) l' (f acc x i)
  end.

Definition reduce {A B : Type} (f : B -> A -> nat -> B)
    (l : list A) (init : B) : B :=
  reduce_from f 0 l init.

End Js.

(** ** Data model: the response of the Articles query *)

Record Author := {
  author_changed_on : string;
  author_id : string;
  author_bio : string;
  author_full_name : string
}.

Record Category := {
  category_changed_on : string;
  category_id : string;
  category_slug : string;
  category_title : string
}.

Record AssetItem := {
  asset_id : string;
  asset_type : string;
  asset_url : string
}.

(** The language tag of a code block: ['JS' | 'TS' | 'RB']. *)
Inductive Language := JS | TS | RB.

Definition Language_string (l : Language) : string :=
  match l with JS => "JS" | TS => "TS" | RB => "RB" end.

(** One content block.  The source tells the shapes apart by the field that
    is present: [items] (an [... on Assets] fragment), then [code]
    ([... on CodeBlock]), then [html] ([... on Text]); a block with none of
    the three takes the last branch of the fold. *)
Inductive Content :=
| Assets (items : list AssetItem)
| CodeBlock (_id : string) (code : string) (language : Language)
| Text (_id : string) (html : string)
| OtherBlock (_id : string).

Record Article := {
  _changed_on : string;
  _id : string;
  _slug : string;
  authors : list Author;
  categories : list Category;
  content : list Content;
  title : string
}.

(** [allArticles.data.Articles]: the items gathered so far and the total the
    API reported. *)
Record Articles := {
  items : list Article;
  total : Z
}.

Record Location := { column : Z; line : Z }.

Record GraphQLError := {
  locations : list Location;
  message : string
}.

(** The body of a response: either [{data: {Articles: ...}}] or
    [{errors: [...]}] (the test is ['errors' in articlesInPage]). *)
Inductive Response :=
| Data (page : Articles)
| Errors (errors : list GraphQLError).

(** ** Nodes handed to [model.create] *)

Record AuthorNode := {
  n_author_id : string;
  n_bio : string;
  n_name : string
}.

Record CategoryNode := {
  n_category_id : string;
  n_cat_slug : string;
  n_cat_title : string
}.

Record Node := {
  n_authors : list AuthorNode;
  n_body : string;
  n_categories : list CategoryNode;
  n_id : string;
  n_slug : string;
  n_title : string;
  n_updated : string
}.

(** ** Content Flattener (index.ts, lines 152-164) *)

(** Inner callback (line 155): one [<img>] tag after the tags so far. *)
Definition img_step (contentBody : string) (contentItem : AssetItem) : string :=
  contentBody +:+ "<img href=" +:+ Js.dquote +:+ asset_url contentItem
              +:+ Js.dquote +:+ "/>".

(** Outer callback (lines 152-163).  The [Assets] branch starts its inner
    fold from the empty string and does not use [body]. *)
Definition body_step (body : string) (c : Content) : string :=
  match c with
  | Assets its => fold_left img_step its EmptyString
  | CodeBlock _ code language =>
      body +:+ "<pre lang=" +:+ Js.toLowerCase (Language_string language)
           +:+ "><code>" +:+ code +:+ "</code></pre>"
  | Text _ html => body +:+ html
  | OtherBlock _ => body
  end.

Definition flatten (cs : list Content) : string :=
  fold_left body_step cs EmptyString.

(** ** Article Transformer (index.ts, lines 143-177) *)

Definition author_node (author : Author) : AuthorNode :=
  {| n_author_id := author_id author;
     n_bio := author_bio author;
     n_name := author_full_name author |}.

Definition category_node (category : Category) : CategoryNode :=
  {| n_category_id := category_id category;
     n_cat_slug := category_slug category;
     n_cat_title := category_title category |}.

Definition article_node (article : Article) : Node :=
  {| n_authors := map author_node (authors article);
     n_body := flatten (content article);
     n_categories := map category_node (categories article);
     n_id := _id article;
     n_slug := _slug article;
     n_title := title article;
     n_updated := _changed_on article |}.

(** ** The host, the network and the clock *)

(** A POST to [https://graphql.prepr.io/]: the fixed query is left out; the
    token is what wretch appends to the URL, [skip] and [where] are the
    query's variables ([None] is JavaScript's [null]). *)
Record Request := {
  req_apiToken : string;
  req_skip : Z;
  req_changed_on_gte : option string
}.

(** The calls that leave the module, in the order they are made. *)
Inductive Event :=
| EvPost (rq : Request)
| EvCreate (nodes : list Node)
| EvDelete (id : string)
| EvCacheGet (key : string)
| EvCacheSet (key value : string).

(** [graphql] is the answer of the API to each request, [date_now] the
    reading [Date.now()] gives (milliseconds since the epoch), [cache] the
    host's key-value cache and [trace] the calls made so far. *)
Record World := {
  graphql : Request -> Response;
  date_now : Z;
  cache : gmap string string;
  trace : list Event
}.

Definition emit (ev : Event) (w : World) : World :=
  {| graphql := graphql w; date_now := date_now w;
     cache := cache w; trace := trace w ++ [ev] |}.

Definition store (key value : string) (w : World) : World :=
  {| graphql := graphql w; date_now := date_now w;
     cache := <[key := value]> (cache w); trace := trace w |}.

(** What a JavaScript call can do: return, throw, or (in the model only)
    exhaust the bound on the depth of the recursion. *)
Inductive Exn :=
| Error (msg : string)
| TypeError.

Inductive Completion (A : Type) :=
| Return (a : A)
| Throw (e : Exn)
| OutOfFuel.
Arguments Return {A} a.
Arguments Throw {A} e.
Arguments OutOfFuel {A}.

Definition M (A : Type) : Type := World -> Completion A * World.

Definition M_ret {A : Type} (a : A) : M A := fun w => (Return a, w).

Definition M_bind {A B : Type} (f : A -> M B) (m : M A) : M B :=
  fun w =>
    match m w with
    | (Return a, w') => f a w'
    | (Throw e, w') => (Throw e, w')
    | (OutOfFuel, w') => (OutOfFuel, w')
    end.

#[global] Instance M_mret : MRet M := @M_ret.
#[global] Instance M_mbind : MBind M := @M_bind.

Definition throw {A : Type} (e : Exn) : M A := fun w => (Throw e, w).
Definition out_of_fuel {A : Type} : M A := fun w => (OutOfFuel, w).

(** [wretch(url).post(body, apiToken).json()], for a call that is answered
    with a parsed body.  A call that is rejected (a transport failure, a
    status that is not 2xx, a body that is not JSON) is not modelled: the
    statements about the Fetcher speak of the answers that were received. *)
Definition post (rq : Request) : M Response :=
  fun w => (Return (graphql w rq), emit (EvPost rq) w).

Definition model_create (nodes : list Node) : M unit :=
  fun w => (Return tt, emit (EvCreate nodes) w).

Definition model_delete (id : string) : M unit :=
  fun w => (Return tt, emit (EvDelete id) w).

(** [cache.get(key)]: [None] stands for the [undefined] of a missing key,
    which the default parameter of [syncArticles] turns into [null]. *)
Definition cache_get (key : string) : M (option string) :=
  fun w => (Return (cache w !! key), emit (EvCacheGet key) w).

Definition cache_set (key value : string) : M unit :=
  fun w => (Return tt, emit (EvCacheSet key value) (store key value w)).

Definition Date_now : M Z := fun w => (Return (date_now w), w).

(** ** GraphQL Fetcher (index.ts, lines 55-141) *)

(** The callback of the error fold (line 130).  [locations[0]] of an empty
    list is [undefined], and reading [.line] of it throws a [TypeError]:
    that is the [None]. *)
Definition error_step (currentString : string) (currentError : GraphQLError)
    (currentErrorIndex : nat) : option string :=
  loc ← locations currentError !! 0%nat;
  Some (currentString +:+ "GraphQlError "
          +:+ Js.number_toString (Z.of_nat currentErrorIndex + 1) +:+ ": "
          +:+ message currentError +:+ " at "
          +:+ Js.number_toString (line loc) +:+ ":"
          +:+ Js.number_toString (column loc) +:+ Js.newline).

Definition error_header (errors : list GraphQLError) : string :=
  "Received " +:+ Js.number_toString (Z.of_nat (length errors))
              +:+ " error(s) from GraphQL:" +:+ Js.newline.

(** The fold stops at the first callback that throws. *)
Definition error_fold (acc : option string) (currentError : GraphQLError)
    (currentErrorIndex : nat) : option string :=
  currentString ← acc; error_step currentString currentError currentErrorIndex.

(** The argument of [new Error(...)] (lines 129-131). *)
Definition errors_message (errors : list GraphQLError) : option string :=
  Js.reduce error_fold errors (Some (error_header errors)).

(** What line 129 throws: the [Error] with the aggregated message, or the
    [TypeError] raised while the message is built. *)
Definition errors_exn (errors : list GraphQLError) : Exn :=
  match errors_message errors with
  | Some msg => Error msg
  | None => TypeError
  end.

(** Lines 133-136: the page is appended, and the total is taken from the
    page while the recorded total is still [0]. *)
Definition add_page (allArticles page : Articles) : Articles :=
  {| items := items allArticles ++ items page;
     total := if total allArticles =? 0 then total page
              else total allArticles |}.

(** Line 137. *)
Definition more_pages (allArticles : Articles) : bool :=
  total allArticles >? Z.of_nat (length (items allArticles)).

(** [fetchArticles(skip)].  [allArticles] is the object the closure
    mutates; [fuel] bounds the depth of the recursion, which the source
    does not bound. *)
Fixpoint fetchArticles (fuel : nat) (apiToken : string)
    (updatedGte : option string) (skip : Z) (allArticles : Articles)
    : M Articles :=
  match fuel with
  | O => out_of_fuel
  | S fuel' =>
      articlesInPage ← post {| req_apiToken := apiToken; req_skip := skip;
                               req_changed_on_gte := updatedGte |};
      match articlesInPage with
      | Errors errors => throw (errors_exn errors)
      | Data page =>
          let allArticles' := add_page allArticles page in
          if more_pages allArticles'
          then fetchArticles fuel' apiToken updatedGte (skip + 100) allArticles'
          else mret allArticles'
      end
  end.

Definition no_articles : Articles := {| items := []; total := 0 |}.

(** ** Sync Orchestrator and the two handlers *)

(** The body of a webhook, [{event, payload: {id}}]; the payload may be
    missing. *)
Record WebhookPayload := { payload_id : string }.

Record WebhookBody := {
  event : string;
  payload : option WebhookPayload
}.

Section Connector.

(** [formatISO] of date-fns, an external library: any function from the
    clock's reading to the text that is cached. *)
Variable formatISO : Z -> string.

(** [syncArticles(apiToken, model, cache, updatedGte)] (lines 7-179). *)
Definition syncArticles (fuel : nat) (apiToken : string)
    (updatedGte : option string) : M unit :=
  allArticles ← fetchArticles fuel apiToken updatedGte 0 no_articles;
  model_create (map article_node (items allArticles));;
  now ← Date_now;
  cache_set "lastSync" (formatISO now).

(** The [createAllNodes] handler (lines 196-198). *)
Definition createAllNodes (fuel : nat) (apiToken : string) : M unit :=
  syncArticles fuel apiToken None.

(** The [updateNodes] handler (lines 199-206).  Reading [.id] of a
    missing payload throws a [TypeError]. *)
Definition updateNodes (fuel : nat) (webhookBody : WebhookBody)
    (apiToken : string) : M unit :=
  if decide (event webhookBody = "content_item.deleted") then
    match payload webhookBody with
    | Some p => model_delete (payload_id p)
    | None => throw TypeError
    end
  else
    lastSync ← cache_get "lastSync";
    syncArticles fuel apiToken lastSync.

End Connector.

(** ** date-fns [formatISO] in a process whose time zone is UTC

    With its default options [formatISO] prints the local date and time to
    the second, [yyyy-MM-ddTHH:mm:ss], followed by [Z] when the zone's
    offset is zero.  This is the instance used to run the connector on
    concrete clocks; the theorems about the connector hold for every
    [formatISO]. *)
Module DateFns.

(** [addLeadingZeros(number, targetLength)] for a number that is not
    negative. *)
Definition addLeadingZeros (n : Z) (targetLength : nat) : string :=
  let digits := Js.number_toString n in
  String.app (String.string_of_list_ascii
                (repeat "0"%char (targetLength - String.length digits)))
             digits.

(** Year, month and day of the day that is [days] days after
    1970-01-01 (proleptic Gregorian calendar). *)
Definition civil_from_days (days : Z) : Z * Z * Z :=
  let z := days + 719468 in
  let era := z / 146097 in
  let doe := z - era * 146097 in
  let yoe := (doe - doe / 1460 + doe / 36524 - doe / 146096) / 365 in
  let doy := doe - (365 * yoe + yoe / 4 - yoe / 100) in
  let mp := (5 * doy + 2) / 153 in
  let d := doy - (153 * mp + 2) / 5 + 1 in
  let m := if mp <? 10 then mp + 3 else mp - 9 in
  let y := yoe + era * 400 + (if m <=? 2 then 1 else 0) in
  (y, m, d).

Definition formatISO (ms : Z) : string :=
  let secs := ms / 1000 in
  let '(y, m, d) := civil_from_days (secs / 86400) in
  let sod := secs mod 86400 in
  addLeadingZeros y 4 +:+ "-" +:+ addLeadingZeros m 2 +:+ "-"
    +:+ addLeadingZeros d 2 +:+ "T"
    +:+ addLeadingZeros (sod / 3600) 2 +:+ ":"
    +:+ addLeadingZeros (sod mod 3600 / 60) 2 +:+ ":"
    +:+ addLeadingZeros (sod mod 60) 2 +:+ "Z".

End DateFns.

(** ** Vocabulary of the statements *)

(** All the strings of a list, one after the other. *)
Definition join (ss : list string) : string :=
  foldr String.app EmptyString ss.

(** The tag the Content Flattener writes for one asset. *)
Definition img_tag (contentItem : AssetItem) : string :=
  "<img href=" +:+ Js.dquote +:+ asset_url contentItem +:+ Js.dquote +:+ "/>".

(** The wrapper the Content Flattener writes for one code block. *)
Definition pre_tag (code : string) (language : Language) : string :=
  "<pre lang=" +:+ Js.toLowerCase (Language_string language)
               +:+ "><code>" +:+ code +:+ "</code></pre>".

(** One enumerated entry of the aggregated error message. *)
Definition enumerated_entry (index : Z) (msg : string) (loc : Location)
    : string :=
  "GraphQlError " +:+ Js.number_toString index +:+ ": " +:+ msg +:+ " at "
    +:+ Js.number_toString (line loc) +:+ ":"
    +:+ Js.number_toString (column loc) +:+ Js.newline.

(** [msg] is the header followed by one entry per error, the entry at
    position [i] carrying the index [i + 1], the error's message and the
    line and column of the error's first location. *)
Definition enumerates (msg : string) (errors : list GraphQLError) : Prop :=
  exists entries : list string,
    length entries = length errors /\
    msg = error_header errors +:+ join entries /\
    forall (i : nat) (e : GraphQLError),
      errors !! i = Some e ->
      exists loc,
        locations e !! 0%nat = Some loc /\
        entries !! i = Some (enumerated_entry (Z.of_nat i + 1) (message e) loc).

(** The world after the calls [evs] have been made. *)
Definition emits (evs : list Event) (w : World) : World :=
  {| graphql := graphql w; date_now := date_now w;
     cache := cache w; trace := trace w ++ evs |}.

(** The calls made between the world [w] and the later world [w']. *)
Definition run_events (w w' : World) : list Event :=
  drop (length (trace w)) (trace w').

(** The request for the page that starts [100 * k] items after [skip], and
    the first [n] such requests. *)
Definition page_request (apiToken : string) (updatedGte : option string)
    (skip : Z) (k : nat) : Request :=
  {| req_apiToken := apiToken; req_skip := skip + 100 * Z.of_nat k;
     req_changed_on_gte := updatedGte |}.

Definition page_requests (apiToken : string) (updatedGte : option string)
    (skip : Z) (n : nat) : list Request :=
  map (page_request apiToken updatedGte skip) (seq 0 n).

Definition is_data (w : World) (rq : Request) : Prop :=
  exists page, graphql w rq = Data page.

Definition is_errors (w : World) (rq : Request) : Prop :=
  exists errors, graphql w rq = Errors errors.

(** The API serves [N] articles in pages of 100: every page that is needed
    (the first one, and each one that starts before the [N]-th article)
    reports the total [N] and holds 100 items, the last one the rest. *)
Definition paged (w : World) (apiToken : string) (updatedGte : option string)
    (N : Z) : Prop :=
  forall k : nat,
    k = 0%nat \/ 100 * Z.of_nat k < N ->
    exists page,
      graphql w (page_request apiToken updatedGte 0 k) = Data page /\
      total page = N /\
      Z.of_nat (length (items page)) = Z.min 100 (N - 100 * Z.of_nat k).

(** The number of requests the Fetcher makes for [N] articles: one per page
    of 100, and one when there is no article at all. *)
Definition pages (N : Z) : nat := Z.to_nat (Z.max 1 ((N + 99) / 100)).

(** [ceil(n / d)] for a positive [d]. *)
Definition ceil_div (n d : Z) : Z := (n + d - 1) / d.

(** The requests among the calls of a trace. *)
Definition posts_of (evs : list Event) : list Request :=
  omap (fun ev => match ev with EvPost rq => Some rq | _ => None end) evs.

(** A run that was aborted before anything was persisted: it threw, the
    cache is as it was, and neither [model.create] nor [cache.set] is
    among the calls of the run. *)
Definition aborted (w : World) (c : Completion unit) (w' : World) : Prop :=
  (exists e, c = Throw e) /\
  cache w' = cache w /\
  (forall nodes, EvCreate nodes ∉ run_events w w') /\
  (forall key value, EvCacheSet key value ∉ run_events w w').

(** The cursor of [w'] is strictly later than the cursor of [w], when [w]
    has one.  Timestamps that [formatISO] prints in one time zone are
    ordered in time as they are ordered as strings. *)
Definition cursor_advanced (w w' : World) : Prop :=
  forall old,
    cache w !! "lastSync" = Some old ->
    exists new, cache w' !! "lastSync" = Some new /\ String.ltb old new = true.

(** ** Concrete worlds, for running the connector *)

(** A fresh host (empty cache, no call made yet) in front of an API that
    answers [answer], at the time [now]. *)
Definition fresh_world (answer : Request -> Response) (now : Z) : World :=
  {| graphql := answer; date_now := now; cache := ∅; trace := [] |}.

(** The same host at another time. *)
Definition at_time (now : Z) (w : World) : World :=
  {| graphql := graphql w; date_now := now;
     cache := cache w; trace := trace w |}.

(** An API without articles. *)
Definition empty_api (rq : Request) : Response :=
  Data {| items := []; total := 0 |}.

(** An API that serves [N] copies of one article in pages of 100. *)
Definition sample_article : Article :=
  {| _changed_on := "2024-01-01T00:00:00Z"; _id := "abc"; _slug := "my-post";
     authors := []; categories := []; content := []; title := "Hello" |}.

Definition paged_api (N : Z) (rq : Request) : Response :=
  Data {| items := repeat sample_article
                     (Z.to_nat (Z.min 100 (N - req_skip rq)));
          total := N |}.

(** An API that rejects the query with one error that carries the
    locations [locs]. *)
Definition failing_api (locs : list Location) (rq : Request) : Response :=
  Errors [ {| locations := locs; message := "Syntax Error" |} ].

(** ** Vocabulary of the further properties *)

(** The articles an answer carries: the items of a data page, none for an
    error list. *)
Definition answer_items (r : Response) : list Article :=
  match r with
  | Data page => items page
  | Errors _ => []
  end.

(** What one block contributes to the body. *)
Definition block_html (c : Content) : string :=
  match c with
  | Assets its => join (map img_tag its)
  | CodeBlock _ code language => pre_tag code language
  | Text _ html => html
  | OtherBlock _ => EmptyString
  end.

Definition is_assets (c : Content) : bool :=
  match c with
  | Assets _ => true
  | _ => false
  end.

(** The blocks from the last asset group on; all of them when there is no
    asset group. *)
Fixpoint from_last_assets (cs : list Content) : list Content :=
  match cs with
  | [] => []
  | c :: cs' => if existsb is_assets cs' then from_last_assets cs' else c :: cs'
  end.

(** The calls a sync may make with the token [apiToken] and the filter
    [updatedGte]. *)
Definition sync_call (apiToken : string) (updatedGte : option string)
    (ev : Event) : Prop :=
  match ev with
  | EvPost rq => req_apiToken rq = apiToken /\ req_changed_on_gte rq = updatedGte
  | EvCreate _ => True
  | EvCacheSet key _ => key = "lastSync"
  | EvDelete _ => False
  | EvCacheGet _ => False
  end.

(** An API that reports [T] articles and serves none. *)
Definition stalled_api (T : Z) (rq : Request) : Response :=
  Data {| items := []; total := T |}.

(** An API with one article, which reports another total from the second
    page on. *)
Definition one_article_api (rq : Request) : Response :=
  Data {| items := if req_skip rq =? 0 then [sample_article] else [];
          total := if req_skip rq =? 0 then 1 else 7 |}.

(** ** Strings *)

Section Strings.

Lemma str_app_cons (c : ascii) (s t : string) :
  String c s +:+ t = String c (s +:+ t).
Proof. reflexivity. Qed.

Lemma str_app_nil_l (s : string) : EmptyString +:+ s = s.
Proof. reflexivity. Qed.

Lemma str_app_nil_r (s : string) : s +:+ EmptyString = s.
Proof.
  induction s as [|c s IH]; [reflexivity|].
  by rewrite str_app_cons, IH.
Qed.

Lemma str_app_assoc (s t u : string) : (s +:+ t) +:+ u = s +:+ (t +:+ u).
Proof.
  induction s as [|c s IH]; [reflexivity|].
  by rewrite !str_app_cons, IH.
Qed.

Lemma join_cons (s : string) (ss : list string) :
  join (s :: ss) = s +:+ join ss.
Proof. reflexivity. Qed.

Lemma join_app (ss ts : list string) : join (ss ++ ts) = join ss +:+ join ts.
Proof.
  induction ss as [|s ss IH]; [reflexivity|].
  by rewrite <- app_comm_cons, !join_cons, IH, str_app_assoc.
Qed.

End Strings.

(** ** Content Flattener *)

Lemma img_step_tag (contentBody : string) (contentItem : AssetItem) :
  img_step contentBody contentItem = contentBody +:+ img_tag contentItem.
Proof. reflexivity. Qed.

Lemma fold_img_step (its : list AssetItem) (acc : string) :
  fold_left img_step its acc = acc +:+ join (map img_tag its).
Proof.
  revert acc. induction its as [|it its IH]; intros acc.
  - by rewrite str_app_nil_r.
  - cbn [fold_left map]. by rewrite IH, img_step_tag, join_cons, str_app_assoc.
Qed.

Lemma flatten_snoc (cs : list Content) (c : Content) :
  flatten (cs ++ [c]) = body_step (flatten cs) c.
Proof. unfold flatten. by rewrite fold_left_app. Qed.

Lemma flatten_assets (its : list AssetItem) :
  flatten [Assets its] = join (map img_tag its).
Proof.
  unfold flatten. cbn [fold_left body_step]. by rewrite fold_img_step.
Qed.

(** C1, as the code has it.  The three blocks flatten to the two [<img>]
    tags followed by the code wrapper and the HTML: the asset group comes
    first, so the body it discards is empty, and the later blocks append to
    its tags.  In general an asset group replaces whatever body was
    accumulated before it, a code block appends its wrapper with the
    language in lower case, and a text block appends its HTML unchanged. *)
Theorem C1_flatten_assets_code_text :
  (forall (a b : AssetItem) (id1 id2 : string),
     flatten [Assets [a; b]; CodeBlock id1 "x" JS; Text id2 "<p>y</p>"]
     = img_tag a +:+ img_tag b +:+ "<pre lang=js><code>x</code></pre><p>y</p>")
  /\ (forall (cs : list Content) (its : list AssetItem),
        flatten (cs ++ [Assets its]) = join (map img_tag its))
  /\ (forall (cs : list Content) (id code : string) (language : Language),
        flatten (cs ++ [CodeBlock id code language])
        = flatten cs +:+ pre_tag code language)
  /\ (forall (cs : list Content) (id html : string),
        flatten (cs ++ [Text id html]) = flatten cs +:+ html).
Proof.
  split; [|split; [|split]].
  - intros a b id1 id2. unfold flatten. cbn [fold_left body_step].
    rewrite !img_step_tag, str_app_nil_l.
    change (Js.toLowerCase (Language_string JS)) with "js".
    by rewrite !str_app_assoc.
  - intros cs its. rewrite flatten_snoc. cbn [body_step].
    by rewrite fold_img_step.
  - intros cs id code language. by rewrite flatten_snoc.
  - intros cs id html. by rewrite flatten_snoc.
Qed.

(** C1, as the spec words it, fails: with the asset URLs [a] and [b] the
    body is not the code wrapper and the HTML alone, it starts with the two
    [<img>] tags. *)
Lemma C1_img_tags_are_kept :
  let a := {| asset_id := "1"; asset_type := "Photo"; asset_url := "a" |} in
  let b := {| asset_id := "2"; asset_type := "Photo"; asset_url := "b" |} in
  let body := flatten [Assets [a; b]; CodeBlock "3" "x" JS; Text "4" "<p>y</p>"] in
  body <> "<pre lang=js><code>x</code></pre><p>y</p>"
  /\ body = "<img href=" +:+ Js.dquote +:+ "a" +:+ Js.dquote +:+ "/>"
           +:+ "<img href=" +:+ Js.dquote +:+ "b" +:+ Js.dquote +:+ "/>"
           +:+ "<pre lang=js><code>x</code></pre><p>y</p>".
Proof. split; [discriminate | reflexivity]. Qed.

(** C8.  A lone asset group with the single asset URL [a] flattens to
    [<img href="a"/>]; with any list of assets it flattens to one tag per
    asset, in order. *)
Theorem C8_lone_asset_group :
  (forall a : AssetItem,
     flatten [Assets [a]]
     = "<img href=" +:+ Js.dquote +:+ asset_url a +:+ Js.dquote +:+ "/>")
  /\ (forall its : list AssetItem,
        flatten [Assets its] = join (map img_tag its)).
Proof.
  split.
  - intros a. rewrite flatten_assets. cbn [map]. rewrite join_cons.
    unfold join; cbn [foldr]. by rewrite str_app_nil_r.
  - apply flatten_assets.
Qed.

(** ** Article Transformer *)

(** C7.  An article with id [abc], slug [my-post], title [Hello], no author,
    no category and the timestamp [2024-01-01T00:00:00Z] is mapped to
    exactly one node, which has the same id, slug, title and timestamp and
    empty author and category lists (its body is the flattened content);
    and every list of articles is mapped to one node per article. *)
Theorem C7_article_round_trip (blocks : list Content) :
  let article :=
    {| _changed_on := "2024-01-01T00:00:00Z"; _id := "abc";
       _slug := "my-post"; authors := []; categories := [];
       content := blocks; title := "Hello" |} in
  map article_node [article]
  = [ {| n_authors := []; n_body := flatten blocks; n_categories := [];
         n_id := "abc"; n_slug := "my-post"; n_title := "Hello";
         n_updated := "2024-01-01T00:00:00Z" |} ]
  /\ forall articles : list Article,
       length (map article_node articles) = length articles.
Proof.
  split; [reflexivity|].
  intros articles. apply length_map.
Qed.

(** ** The aggregated error message *)

Section ErrorMessage.

Lemma error_step_entry (s : string) (e : GraphQLError) (i : nat)
    (loc : Location) :
  locations e !! 0%nat = Some loc ->
  error_step s e i
  = Some (s +:+ enumerated_entry (Z.of_nat i + 1) (message e) loc).
Proof.
  intros Hloc. unfold error_step, enumerated_entry. rewrite Hloc.
  reflexivity.
Qed.

Lemma error_step_no_location (s : string) (e : GraphQLError) (i : nat) :
  locations e = [] -> error_step s e i = None.
Proof. intros Hloc. unfold error_step. by rewrite Hloc. Qed.

Lemma reduce_thrown (errors : list GraphQLError) (i : nat) :
  Js.reduce_from error_fold i errors None = None.
Proof.
  revert i. induction errors as [|e errors IH]; intros i; [done|].
  cbn [Js.reduce_from]. apply IH.
Qed.

Lemma reduce_entries (errors : list GraphQLError) :
  Forall (fun e => locations e <> []) errors ->
  forall (i : nat) (s : string),
  exists entries : list string,
    Js.reduce_from error_fold i errors (Some s) = Some (s +:+ join entries)
    /\ length entries = length errors
    /\ forall (j : nat) (e : GraphQLError),
         errors !! j = Some e ->
         exists loc,
           locations e !! 0%nat = Some loc /\
           entries !! j
           = Some (enumerated_entry (Z.of_nat (i + j) + 1) (message e) loc).
Proof.
  induction 1 as [|e errors Hloc _ IH]; intros i s.
  - exists []. split; [by rewrite str_app_nil_r|]. split; [done|].
    intros j e He. by rewrite lookup_nil in He.
  - destruct (locations e) as [|loc locs] eqn:Hlocs; [done|].
    assert (locations e !! 0%nat = Some loc) as Hfirst by by rewrite Hlocs.
    destruct (IH (S i) (s +:+ enumerated_entry (Z.of_nat i + 1) (message e) loc))
      as (entries & Hred & Hlen & Hnth).
    exists (enumerated_entry (Z.of_nat i + 1) (message e) loc :: entries).
    split; [|split].
    + cbn [Js.reduce_from]. unfold error_fold at 2. cbn [mbind option_bind].
      rewrite (error_step_entry _ _ _ _ Hfirst), Hred.
      by rewrite join_cons, str_app_assoc.
    + cbn [length]. by rewrite Hlen.
    + intros [|j] e' He'.
      * injection He' as <-. exists loc. split; [done|].
        by rewrite Nat.add_0_r.
      * destruct (Hnth j e' He') as (loc' & Hloc' & Hentry).
        exists loc'. split; [done|].
        replace (i + S j)%nat with (S i + j)%nat by lia.
        exact Hentry.
Qed.

Lemma reduce_no_location (errors : list GraphQLError) :
  Exists (fun e => locations e = []) errors ->
  forall (i : nat) (acc : option string),
    Js.reduce_from error_fold i errors acc = None.
Proof.
  induction 1 as [e errors Hloc|e errors _ IH]; intros i acc.
  - cbn [Js.reduce_from]. destruct acc as [s|]; unfold error_fold; cbn [mbind option_bind].
    + rewrite (error_step_no_location _ _ _ Hloc). apply reduce_thrown.
    + apply reduce_thrown.
  - cbn [Js.reduce_from]. apply IH.
Qed.

Lemma reduce_agree (errors errors' : list GraphQLError) :
  Forall2 (fun e e' => message e = message e' /\
                       locations e !! 0%nat = locations e' !! 0%nat)
          errors errors' ->
  forall (i : nat) (acc : option string),
    Js.reduce_from error_fold i errors acc = Js.reduce_from error_fold i errors' acc.
Proof.
  induction 1 as [|e e' errors errors' [Hmsg Hloc] _ IH]; intros i acc;
    [done|].
  cbn [Js.reduce_from]. rewrite IH. f_equal.
  destruct acc as [s|]; [|done]. unfold error_fold; cbn [mbind option_bind].
  unfold error_step. by rewrite Hmsg, Hloc.
Qed.

Lemma locations_present_or_missing (errors : list GraphQLError) :
  Forall (fun e => locations e <> []) errors
  \/ Exists (fun e => locations e = []) errors.
Proof.
  induction errors as [|e errors [IH|IH]].
  - left. constructor.
  - destruct (locations e) eqn:Hloc.
    + right. by constructor.
    + left. constructor; [by rewrite Hloc|exact IH].
  - right. by constructor 2.
Qed.

Lemma errors_message_enumerates (errors : list GraphQLError) :
  Forall (fun e => locations e <> []) errors ->
  exists msg, errors_message errors = Some msg /\ enumerates msg errors.
Proof.
  intros Hlocs.
  destruct (reduce_entries errors Hlocs 0 (error_header errors))
    as (entries & Hred & Hlen & Hnth).
  exists (error_header errors +:+ join entries). split; [exact Hred|].
  exists entries. repeat split; [done|]. exact Hnth.
Qed.

Lemma errors_message_no_location (errors : list GraphQLError) :
  Exists (fun e => locations e = []) errors -> errors_message errors = None.
Proof. intros Hex. by apply reduce_no_location. Qed.

Lemma errors_message_agree (errors errors' : list GraphQLError) :
  Forall2 (fun e e' => message e = message e' /\
                       locations e !! 0%nat = locations e' !! 0%nat)
          errors errors' ->
  errors_message errors = errors_message errors'.
Proof.
  intros Hagree. unfold errors_message, Js.reduce, error_header.
  rewrite (Forall2_length _ _ _ Hagree). by apply reduce_agree.
Qed.

End ErrorMessage.

(** ** Worlds and traces *)

Section Worlds.

Lemma emits_nil (w : World) : emits [] w = w.
Proof. destruct w. unfold emits. cbn. by rewrite app_nil_r. Qed.

Lemma emit_emits (ev : Event) (w : World) : emit ev w = emits [ev] w.
Proof. reflexivity. Qed.

Lemma emits_emits (evs1 evs2 : list Event) (w : World) :
  emits evs2 (emits evs1 w) = emits (evs1 ++ evs2) w.
Proof. unfold emits. cbn. by rewrite app_assoc. Qed.

Lemma store_emits (key value : string) (evs : list Event) (w : World) :
  store key value (emits evs w) = emits evs (store key value w).
Proof. reflexivity. Qed.

Lemma run_events_emits (evs : list Event) (w : World) :
  run_events w (emits evs w) = evs.
Proof. unfold run_events. cbn. by rewrite drop_app_length. Qed.

Lemma run_events_store_emits (key value : string) (evs : list Event)
    (w : World) :
  run_events w (emits evs (store key value w)) = evs.
Proof. unfold run_events. cbn. by rewrite drop_app_length. Qed.

Lemma page_requests_S (apiToken : string) (updatedGte : option string)
    (skip : Z) (n : nat) :
  page_requests apiToken updatedGte skip (S n)
  = page_request apiToken updatedGte skip 0
      :: page_requests apiToken updatedGte (skip + 100) n.
Proof.
  unfold page_requests. cbn [seq map]. f_equal.
  rewrite <- seq_shift, map_map. apply map_ext. intros k.
  unfold page_request. f_equal. lia.
Qed.

Lemma page_request_0 (apiToken : string) (updatedGte : option string)
    (skip : Z) :
  page_request apiToken updatedGte skip 0
  = {| req_apiToken := apiToken; req_skip := skip;
       req_changed_on_gte := updatedGte |}.
Proof. unfold page_request. f_equal. lia. Qed.

Lemma posts_of_posts (rqs : list Request) : posts_of (map EvPost rqs) = rqs.
Proof.
  induction rqs as [|rq rqs IH]; [done|].
  cbn. unfold posts_of in IH. by rewrite IH.
Qed.

End Worlds.

(** ** GraphQL Fetcher *)

Section Fetcher.

Variables (apiToken : string) (updatedGte : option string).

(** One call of [fetchArticles], up to the recursive call. *)
Lemma fetch_step (fuel : nat) (skip : Z) (allArticles : Articles) (w : World) :
  let rq := {| req_apiToken := apiToken; req_skip := skip;
               req_changed_on_gte := updatedGte |} in
  fetchArticles (S fuel) apiToken updatedGte skip allArticles w
  = match graphql w rq with
    | Errors errors => (Throw (errors_exn errors), emit (EvPost rq) w)
    | Data page =>
        if more_pages (add_page allArticles page)
        then fetchArticles fuel apiToken updatedGte (skip + 100)
               (add_page allArticles page) (emit (EvPost rq) w)
        else (Return (add_page allArticles page), emit (EvPost rq) w)
    end.
Proof.
  intros rq. cbn [fetchArticles]. unfold mbind, M_mbind, M_bind, post.
  fold rq. destruct (graphql w rq) as [page|errors].
  - by destruct (more_pages (add_page allArticles page)).
  - reflexivity.
Qed.

(** The shape of every run of the Fetcher: it posts the requests for
    consecutive pages and nothing else, every answer but the last is a
    data page, and it stops on the first error list, or on the first data
    page with which the recorded total is reached. *)
Lemma fetch_run (fuel : nat) :
  forall (skip : Z) (allArticles : Articles) (w : World),
  exists n : nat,
    let rqs := page_requests apiToken updatedGte skip n in
    let run := fetchArticles fuel apiToken updatedGte skip allArticles w in
    run.2 = emits (map EvPost rqs) w /\
    match run.1 with
    | Return allArticles' =>
        (0 < n)%nat /\ Forall (is_data w) rqs /\
        more_pages allArticles' = false
    | Throw e =>
        exists init rq errors,
          rqs = init ++ [rq] /\ Forall (is_data w) init /\
          graphql w rq = Errors errors /\ e = errors_exn errors
    | OutOfFuel => n = fuel /\ Forall (is_data w) rqs
    end.
Proof.
  induction fuel as [|fuel IH]; intros skip allArticles w.
  - exists 0%nat. cbn. by rewrite emits_nil.
  - set (rq := {| req_apiToken := apiToken; req_skip := skip;
                  req_changed_on_gte := updatedGte |}).
    assert (page_request apiToken updatedGte skip 0 = rq) as Hrq
      by apply page_request_0.
    cbv zeta. rewrite fetch_step. fold rq.
    destruct (graphql w rq) as [page|errors] eqn:Hanswer.
    + destruct (more_pages (add_page allArticles page)) eqn:Hmore.
      * destruct (IH (skip + 100) (add_page allArticles page)
                     (emit (EvPost rq) w)) as (n & Hw & Hc).
        cbv zeta in Hw, Hc. exists (S n).
        rewrite page_requests_S, Hrq. split.
        { rewrite Hw, emit_emits, emits_emits. reflexivity. }
        destruct (fetchArticles fuel apiToken updatedGte (skip + 100)
                    (add_page allArticles page) (emit (EvPost rq) w)).1
          as [allArticles'|e|].
        -- destruct Hc as (_ & Hdata & Hstop).
           split; [lia|]. split; [|done].
           constructor; [by exists page|exact Hdata].
        -- destruct Hc as (init & rq' & errors & Hrqs & Hdata & Herr & ->).
           exists (rq :: init), rq', errors. rewrite Hrqs.
           split; [done|]. split; [|done].
           constructor; [by exists page|exact Hdata].
        -- destruct Hc as (-> & Hdata). split; [done|].
           constructor; [by exists page|exact Hdata].
      * exists 1%nat. rewrite page_requests_S, Hrq. cbn.
        split; [done|]. split; [lia|]. split; [|done].
        constructor; [by exists page|constructor].
    + exists 1%nat. rewrite page_requests_S, Hrq. cbn.
      split; [done|]. exists [], rq, errors. by repeat split.
Qed.

(** The aggregated [Error] of the Fetcher, where the code builds it.  When
    the response holds a list of errors, each of which carries at least one
    location, the Fetcher throws an [Error] whose message is the header
    followed by exactly one entry per error, in order, the entry at
    position [i] carrying the index [i + 1], the error's message and the
    line and column of the error's first location. *)
Theorem C3_errors_are_enumerated (fuel : nat) (skip : Z)
    (allArticles : Articles) (w : World) (errors : list GraphQLError) :
  let rq := {| req_apiToken := apiToken; req_skip := skip;
               req_changed_on_gte := updatedGte |} in
  graphql w rq = Errors errors ->
  Forall (fun e => locations e <> []) errors ->
  exists msg,
    fetchArticles (S fuel) apiToken updatedGte skip allArticles w
    = (Throw (Error msg), emit (EvPost rq) w)
    /\ enumerates msg errors.
Proof.
  intros rq Hanswer Hlocs.
  destruct (errors_message_enumerates errors Hlocs) as (msg & Hmsg & Henum).
  exists msg. split; [|exact Henum].
  rewrite fetch_step. fold rq. rewrite Hanswer.
  unfold errors_exn. by rewrite Hmsg.
Qed.

(** C9.  The message is built (the formatter does not fail) exactly when
    every error carries at least one location; it is the same for two
    lists of errors that agree on the messages and on the first
    locations, whatever further locations they carry; and on an error
    without a location the Fetcher throws a [TypeError] in place of the
    aggregated [Error]. *)
Theorem C9_first_location_only :
  (forall errors,
     is_Some (errors_message errors)
     <-> Forall (fun e => locations e <> []) errors)
  /\ (forall errors errors',
        Forall2 (fun e e' => message e = message e' /\
                             locations e !! 0%nat = locations e' !! 0%nat)
                errors errors' ->
        errors_message errors = errors_message errors')
  /\ (forall fuel skip allArticles w errors,
        graphql w {| req_apiToken := apiToken; req_skip := skip;
                     req_changed_on_gte := updatedGte |} = Errors errors ->
        Exists (fun e => locations e = []) errors ->
        (fetchArticles (S fuel) apiToken updatedGte skip allArticles w).1
        = Throw TypeError).
Proof.
  split; [|split].
  - intros errors. split.
    + intros [msg Hmsg].
      destruct (locations_present_or_missing errors) as [Hall|Hex];
        [exact Hall|].
      by rewrite (errors_message_no_location _ Hex) in Hmsg.
    + intros Hlocs.
      destruct (errors_message_enumerates errors Hlocs) as (msg & -> & _).
      by exists msg.
  - apply errors_message_agree.
  - intros fuel skip allArticles w errors Hanswer Hex.
    rewrite fetch_step, Hanswer. cbn.
    unfold errors_exn. by rewrite (errors_message_no_location _ Hex).
Qed.

End Fetcher.

(** ** Pagination *)

Section Pagination.

Variables (apiToken : string) (updatedGte : option string) (N : Z).

Lemma paged_emit (ev : Event) (w : World) :
  paged w apiToken updatedGte N -> paged (emit ev w) apiToken updatedGte N.
Proof. intros Hpaged k Hk. exact (Hpaged k Hk). Qed.

Lemma paged_nonneg (w : World) : paged w apiToken updatedGte N -> 0 <= N.
Proof.
  intros Hpaged. destruct (Hpaged 0%nat) as (page & _ & _ & Hlen); [by left|].
  lia.
Qed.

(** From the [k]-th page on, with the [k] pages before it gathered, [r]
    more requests complete the list. *)
Lemma fetch_paged (r : nat) :
  forall (k fuel : nat) (allArticles : Articles) (w : World),
    paged w apiToken updatedGte N ->
    (r <= fuel)%nat ->
    Z.of_nat (length (items allArticles)) = 100 * Z.of_nat k ->
    (k = 0%nat /\ total allArticles = 0) \/ total allArticles = N ->
    k = 0%nat \/ 100 * Z.of_nat k < N ->
    (1 <= r)%nat ->
    N <= 100 * Z.of_nat (k + r) ->
    r = 1%nat \/ 100 * Z.of_nat (k + r - 1) < N ->
    exists allArticles',
      fetchArticles fuel apiToken updatedGte (100 * Z.of_nat k) allArticles w
      = (Return allArticles',
         emits (map EvPost (page_requests apiToken updatedGte
                              (100 * Z.of_nat k) r)) w)
      /\ Z.of_nat (length (items allArticles')) = N
      /\ total allArticles' = N.
Proof.
  induction r as [|r IH];
    intros k fuel allArticles w Hpaged Hfuel Hlen Htotal Hk Hr Hupper Hlower;
    [lia|].
  destruct fuel as [|fuel]; [lia|].
  destruct (Hpaged k Hk) as (page & Hanswer & Hpt & Hpl).
  pose proof (paged_nonneg w Hpaged) as HN.
  rewrite fetch_step. cbv zeta.
  replace {| req_apiToken := apiToken; req_skip := 100 * Z.of_nat k;
             req_changed_on_gte := updatedGte |}
    with (page_request apiToken updatedGte 0 k) by reflexivity.
  rewrite Hanswer.
  assert (total (add_page allArticles page) = N) as Htotal'.
  { unfold add_page. cbn [total].
    destruct (Z.eqb_spec (total allArticles) 0) as [Hz|Hnz]; [exact Hpt|].
    destruct Htotal as [[_ Hz]|Ht]; [done|exact Ht]. }
  assert (Z.of_nat (length (items (add_page allArticles page)))
          = 100 * Z.of_nat k + Z.min 100 (N - 100 * Z.of_nat k)) as Hlen'.
  { unfold add_page. cbn [items]. rewrite length_app. lia. }
  unfold more_pages. rewrite Htotal', Hlen'.
  rewrite page_requests_S.
  replace (page_request apiToken updatedGte (100 * Z.of_nat k) 0)
    with (page_request apiToken updatedGte 0 k)
    by (unfold page_request; f_equal; lia).
  destruct (Z.gtb_spec N (100 * Z.of_nat k + Z.min 100 (N - 100 * Z.of_nat k)))
    as [Hmore|Hdone].
  - destruct (IH (S k) fuel (add_page allArticles page)
                 (emit (EvPost (page_request apiToken updatedGte 0 k)) w))
      as (allArticles' & Hrun & Hres);
      [by apply paged_emit|lia|lia|by right|right; lia|lia|lia|lia|].
    exists allArticles'. split; [|exact Hres].
    replace (100 * Z.of_nat k + 100) with (100 * Z.of_nat (S k)) by lia.
    rewrite Hrun, emit_emits, emits_emits. reflexivity.
  - assert (r = 0%nat) as -> by lia.
    exists (add_page allArticles page). split; [|split; [lia|exact Htotal']].
    reflexivity.
Qed.

Lemma pages_bounds : 0 <= N ->
  (1 <= pages N)%nat /\ N <= 100 * Z.of_nat (pages N)
  /\ (pages N = 1%nat \/ 100 * Z.of_nat (pages N - 1) < N).
Proof.
  intros HN. unfold pages.
  pose proof (Z.div_mod (N + 99) 100 ltac:(lia)) as Hdiv.
  pose proof (Z.mod_pos_bound (N + 99) 100 ltac:(lia)) as Hmod.
  lia.
Qed.

(** C2, as the code has it.  When the API serves [N] articles in pages of
    100 and the recursion is allowed to be deep enough, the Fetcher
    returns after exactly [max 1 (ceil (N / 100))] requests, at the
    offsets 0, 100, 200, ..., and the list it has gathered has length
    [N], the total that was reported. *)
Theorem C2_paged_fetch (fuel : nat) (w : World) :
  paged w apiToken updatedGte N ->
  (pages N <= fuel)%nat ->
  exists allArticles,
    fetchArticles fuel apiToken updatedGte 0 no_articles w
    = (Return allArticles,
       emits (map EvPost (page_requests apiToken updatedGte 0 (pages N))) w)
    /\ Z.of_nat (length (page_requests apiToken updatedGte 0 (pages N)))
       = Z.max 1 (ceil_div N 100)
    /\ Z.of_nat (length (items allArticles)) = N
    /\ total allArticles = N.
Proof.
  intros Hpaged Hfuel.
  pose proof (paged_nonneg w Hpaged) as HN.
  destruct (pages_bounds HN) as (H1 & Hupper & Hlower).
  destruct (fetch_paged (pages N) 0 fuel no_articles w)
    as (allArticles & Hrun & Hlen & Htotal);
    [done|done|done|by left|by left|done|exact Hupper|exact Hlower|].
  exists allArticles. split; [exact Hrun|]. split; [|done].
  unfold page_requests. rewrite length_map, length_seq.
  unfold pages, ceil_div.
  pose proof (Z.div_mod (N + 99) 100 ltac:(lia)).
  pose proof (Z.mod_pos_bound (N + 99) 100 ltac:(lia)).
  replace (N + 100 - 1) with (N + 99) by lia. lia.
Qed.

End Pagination.

(** The list the Fetcher returns is complete, whatever the API answers:
    the total it recorded does not exceed the number of items gathered. *)
Lemma fetch_complete (fuel : nat) (apiToken : string)
    (updatedGte : option string) (skip : Z) (allArticles : Articles)
    (w : World) (allArticles' : Articles) (w' : World) :
  fetchArticles fuel apiToken updatedGte skip allArticles w
  = (Return allArticles', w') ->
  total allArticles' <= Z.of_nat (length (items allArticles')).
Proof.
  intros Hrun.
  destruct (fetch_run apiToken updatedGte fuel skip allArticles w)
    as (n & _ & Hc).
  cbv zeta in Hc. rewrite Hrun in Hc. cbn in Hc.
  destruct Hc as (_ & _ & Hstop). unfold more_pages in Hstop. lia.
Qed.

(** C2, as the spec words it, fails when there is no article: the Fetcher
    still makes one request, while [ceil (0 / 100)] is 0. *)
Lemma C2_one_request_for_no_article :
  let w := fresh_world empty_api 0 in
  paged w "token" None 0
  /\ forall fuel : nat,
       let run := fetchArticles (S fuel) "token" None 0 no_articles w in
       run.1 = Return no_articles
       /\ length (posts_of (run_events w run.2)) = 1%nat
       /\ Z.of_nat (length (posts_of (run_events w run.2))) <> ceil_div 0 100.
Proof.
  split.
  - intros k [->|Hk]; [|lia].
    eexists. split; [reflexivity|]. split; reflexivity.
  - intros fuel. cbv zeta. rewrite fetch_step.
    split; [reflexivity|]. split; [reflexivity|]. discriminate.
Qed.

(** ** Sync Orchestrator and handlers *)

Section Orchestrator.

Variable formatISO : Z -> string.

(** [syncArticles] after its fetch: on a list of articles it calls
    [model.create] and [cache.set]; anything else ends the sync. *)
Lemma sync_after_fetch (fuel : nat) (apiToken : string)
    (updatedGte : option string) (w : World) :
  let fetched := fetchArticles fuel apiToken updatedGte 0 no_articles w in
  syncArticles formatISO fuel apiToken updatedGte w
  = match fetched.1 with
    | Return allArticles =>
        (Return tt,
         store "lastSync" (formatISO (date_now w))
           (emits [EvCreate (map article_node (items allArticles));
                   EvCacheSet "lastSync" (formatISO (date_now w))]
                  fetched.2))
    | Throw e => (Throw e, fetched.2)
    | OutOfFuel => (OutOfFuel, fetched.2)
    end.
Proof.
  cbv zeta. unfold syncArticles, mbind, M_mbind, M_bind.
  destruct (fetch_run apiToken updatedGte fuel 0 no_articles w)
    as (n & Hw & _). cbv zeta in Hw.
  destruct (fetchArticles fuel apiToken updatedGte 0 no_articles w)
    as [[allArticles|e|] w1]; cbn [fst snd] in *; [|done..].
  subst w1. unfold model_create, Date_now, cache_set, emit, emits, store.
  cbn. by rewrite <- !app_assoc.
Qed.

(** The shape of every run of [syncArticles]. *)
Lemma sync_run (fuel : nat) (apiToken : string)
    (updatedGte : option string) (w : World) :
  exists n : nat,
    let rqs := page_requests apiToken updatedGte 0 n in
    let run := syncArticles formatISO fuel apiToken updatedGte w in
    match run.1 with
    | Return _ =>
        (0 < n)%nat /\ Forall (is_data w) rqs /\
        exists allArticles,
          run.2 = store "lastSync" (formatISO (date_now w))
                    (emits (map EvPost rqs
                              ++ [EvCreate (map article_node
                                              (items allArticles));
                                  EvCacheSet "lastSync"
                                    (formatISO (date_now w))]) w)
    | Throw e =>
        run.2 = emits (map EvPost rqs) w /\
        exists rq, rq ∈ rqs /\ is_errors w rq
    | OutOfFuel =>
        n = fuel /\
        run.2 = emits (map EvPost rqs) w /\ Forall (is_data w) rqs
    end.
Proof.
  destruct (fetch_run apiToken updatedGte fuel 0 no_articles w)
    as (n & Hw & Hc).
  exists n. cbv zeta in *. rewrite sync_after_fetch. cbv zeta.
  destruct (fetchArticles fuel apiToken updatedGte 0 no_articles w)
    as [[allArticles|e|] w1]; cbn [fst snd] in *; subst w1.
  - destruct Hc as (Hn & Hdata & _). split; [done|]. split; [done|].
    exists allArticles. by rewrite emits_emits.
  - destruct Hc as (init & rq & errors & Hrqs & _ & Herr & _).
    split; [done|]. exists rq. split; [|by exists errors].
    rewrite Hrqs. set_solver.
  - by destruct Hc as (Hn & Hdata).
Qed.

Lemma not_data_and_errors (w : World) (rq : Request) :
  is_data w rq -> is_errors w rq -> False.
Proof. intros [page Hp] [errors He]. congruence. Qed.

Lemma post_in_posts (rq : Request) (rqs : list Request) :
  EvPost rq ∈ map EvPost rqs -> rq ∈ rqs.
Proof.
  intros Hin. apply list_elem_of_fmap in Hin as (rq' & Heq & Hin').
  by injection Heq as ->.
Qed.

(** A sync in which some answer was an error list is aborted. *)
Lemma sync_aborts (fuel : nat) (apiToken : string)
    (updatedGte : option string) (w : World) :
  let run := syncArticles formatISO fuel apiToken updatedGte w in
  (exists rq, EvPost rq ∈ run_events w run.2 /\ is_errors w rq) ->
  (exists e, run.1 = Throw e) /\
  cache run.2 = cache w /\
  exists rqs, run_events w run.2 = map EvPost rqs.
Proof.
  cbv zeta. intros (rq & Hin & Herr).
  destruct (sync_run fuel apiToken updatedGte w) as (n & Hrun).
  cbv zeta in Hrun.
  destruct (syncArticles formatISO fuel apiToken updatedGte w)
    as [[[]|e|] w']; cbn [fst snd] in *.
  - exfalso. destruct Hrun as (_ & Hdata & allArticles & ->).
    rewrite store_emits, run_events_store_emits in Hin.
    apply elem_of_app in Hin as [Hin|Hin].
    + apply post_in_posts in Hin.
      rewrite Forall_forall in Hdata.
      exact (not_data_and_errors w rq (Hdata rq Hin) Herr).
    + by repeat (apply elem_of_cons in Hin as [Hin|Hin]; [done|]);
        apply elem_of_nil in Hin.
  - destruct Hrun as (-> & _). split; [by exists e|]. split; [done|].
    eexists. apply run_events_emits.
  - exfalso. destruct Hrun as (_ & -> & Hdata).
    rewrite run_events_emits in Hin. apply post_in_posts in Hin.
    rewrite Forall_forall in Hdata.
    exact (not_data_and_errors w rq (Hdata rq Hin) Herr).
Qed.

(** The [updateNodes] handler on an event that is not a deletion. *)
Lemma updateNodes_sync (fuel : nat) (webhookBody : WebhookBody)
    (apiToken : string) (w : World) :
  event webhookBody <> "content_item.deleted" ->
  updateNodes formatISO fuel webhookBody apiToken w
  = syncArticles formatISO fuel apiToken (cache w !! "lastSync")
      (emit (EvCacheGet "lastSync") w).
Proof.
  intros Hevent. unfold updateNodes.
  destruct (decide (event webhookBody = "content_item.deleted")); done.
Qed.

(** The [updateNodes] handler on a deletion. *)
Lemma updateNodes_delete (fuel : nat) (p : option WebhookPayload)
    (apiToken : string) (w : World) :
  updateNodes formatISO fuel
    {| event := "content_item.deleted"; payload := p |} apiToken w
  = match p with
    | Some p => (Return tt, emit (EvDelete (payload_id p)) w)
    | None => (Throw TypeError, w)
    end.
Proof. unfold updateNodes. cbn. by destruct p. Qed.

(** Every run of [syncArticles] adds its calls at the end of the trace. *)
Lemma sync_trace (fuel : nat) (apiToken : string)
    (updatedGte : option string) (w : World) :
  let run := syncArticles formatISO fuel apiToken updatedGte w in
  trace run.2 = trace w ++ run_events w run.2.
Proof.
  cbv zeta. destruct (sync_run fuel apiToken updatedGte w) as (n & Hrun).
  cbv zeta in Hrun.
  destruct (syncArticles formatISO fuel apiToken updatedGte w)
    as [[[]|e|] w']; cbn [fst snd] in *.
  - destruct Hrun as (_ & _ & allArticles & ->).
    by rewrite store_emits, run_events_store_emits.
  - destruct Hrun as (-> & _). by rewrite run_events_emits.
  - destruct Hrun as (_ & -> & _). by rewrite run_events_emits.
Qed.

Lemma run_events_after (ev : Event) (w w' : World) :
  trace w' = trace (emit ev w) ++ run_events (emit ev w) w' ->
  run_events w w' = ev :: run_events (emit ev w) w'.
Proof.
  intros Htrace. unfold run_events at 1. rewrite Htrace. cbn.
  by rewrite <- app_assoc, drop_app_length.
Qed.

Lemma run_events_refl (w : World) : run_events w w = [].
Proof. unfold run_events. apply drop_all. Qed.

Lemma page_requests_filter (apiToken : string) (updatedGte : option string)
    (skip : Z) (n : nat) (rq : Request) :
  rq ∈ page_requests apiToken updatedGte skip n ->
  req_apiToken rq = apiToken /\ req_changed_on_gte rq = updatedGte.
Proof.
  intros Hin. apply list_elem_of_fmap in Hin as (k & -> & _). done.
Qed.

(** C4.  When some answer received during a sync, full or incremental,
    holds an error list, the sync is aborted: the handler throws,
    [model.create] is not called, and the cache, with the [lastSync]
    cursor in it, is left as it was. *)
Theorem C4_errors_abort_the_sync (fuel : nat) (webhookBody : WebhookBody)
    (apiToken : string) (w : World) (c : Completion unit) (w' : World) :
  createAllNodes formatISO fuel apiToken w = (c, w')
  \/ updateNodes formatISO fuel webhookBody apiToken w = (c, w') ->
  (exists rq, EvPost rq ∈ run_events w w' /\ is_errors w rq) ->
  aborted w c w'.
Proof.
  intros [Hrun|Hrun] (rq & Hin & Herr).
  - unfold createAllNodes in Hrun.
    destruct (sync_aborts fuel apiToken None w)
      as ((e & He) & Hcache & rqs & Hevs);
      [exists rq; by rewrite Hrun|].
    rewrite Hrun in He, Hcache, Hevs. cbn [fst snd] in *.
    split; [by exists e|]. split; [done|]. rewrite Hevs.
    split; [intros nodes|intros key value];
      intros (rq' & Heq & _)%list_elem_of_fmap; discriminate.
  - destruct (decide (event webhookBody = "content_item.deleted"))
      as [Hdel|Hsync].
    + exfalso. destruct webhookBody as [ev p]. cbn in Hdel. subst ev.
      rewrite updateNodes_delete in Hrun.
      destruct p as [p|]; injection Hrun as <- <-.
      * rewrite emit_emits, run_events_emits in Hin.
        apply elem_of_cons in Hin as [Hin|Hin]; [done|].
        by apply elem_of_nil in Hin.
      * rewrite run_events_refl in Hin. by apply elem_of_nil in Hin.
    + rewrite (updateNodes_sync _ _ _ _ Hsync) in Hrun.
      set (w2 := emit (EvCacheGet "lastSync") w) in *.
      pose proof (sync_trace fuel apiToken (cache w !! "lastSync") w2)
        as Htrace.
      cbv zeta in Htrace. rewrite Hrun in Htrace. cbn [snd] in Htrace.
      pose proof (run_events_after _ _ _ Htrace) as Hevs.
      rewrite Hevs in Hin.
      apply elem_of_cons in Hin as [Hin|Hin]; [done|].
      destruct (sync_aborts fuel apiToken (cache w !! "lastSync") w2)
        as ((e & He) & Hcache & rqs & Hposts);
        [exists rq; by rewrite Hrun|].
      rewrite Hrun in He, Hcache, Hposts. cbn [fst snd] in *.
      split; [by exists e|]. split; [done|].
      rewrite Hevs. fold w2. rewrite Hposts.
      split; [intros nodes|intros key value]; intros Hin';
        (apply elem_of_cons in Hin' as [Hin'|Hin']; [done|]);
        apply list_elem_of_fmap in Hin' as (rq' & Heq & _); discriminate.
Qed.

(** C5, as the code has it.  An incremental sync first reads the cache
    under [lastSync] and then posts its first request, at offset 0, with
    the value it read as [_changed_on_gte], unchanged; every later
    request of the run carries the same filter.  When a sync, full or
    incremental, returns, the cursor has been overwritten with
    [formatISO] of the clock's reading, whatever the cursor was. *)
Theorem C5_cursor_read_and_written (fuel : nat) (webhookBody : WebhookBody)
    (apiToken : string) (w : World) :
  event webhookBody <> "content_item.deleted" ->
  let run := updateNodes formatISO (S fuel) webhookBody apiToken w in
  let full := createAllNodes formatISO (S fuel) apiToken w in
  (exists rest,
     run_events w run.2
     = EvCacheGet "lastSync"
         :: EvPost {| req_apiToken := apiToken; req_skip := 0;
                      req_changed_on_gte := cache w !! "lastSync" |}
         :: rest
     /\ forall rq, EvPost rq ∈ rest ->
                   req_changed_on_gte rq = cache w !! "lastSync")
  /\ (run.1 = Return tt ->
      cache run.2 = <["lastSync" := formatISO (date_now w)]> (cache w))
  /\ (full.1 = Return tt ->
      cache full.2 = <["lastSync" := formatISO (date_now w)]> (cache w)).
Proof.
  intros Hevent. cbv zeta.
  rewrite (updateNodes_sync _ _ _ _ Hevent).
  set (w2 := emit (EvCacheGet "lastSync") w).
  set (gte := cache w !! "lastSync").
  split; [|split].
  - rewrite (run_events_after _ _ _ (sync_trace (S fuel) apiToken gte w2)).
    fold w2.
    destruct (sync_run (S fuel) apiToken gte w2) as (n & Hrun).
    cbv zeta in Hrun.
    destruct (syncArticles formatISO (S fuel) apiToken gte w2)
      as [[[]|e|] w']; cbn [fst snd] in *.
    + destruct Hrun as (Hn & _ & allArticles & ->).
      destruct n as [|n]; [lia|].
      rewrite store_emits, run_events_store_emits, page_requests_S,
        page_request_0.
      eexists. split; [reflexivity|].
      intros rq Hin. apply elem_of_app in Hin as [Hin|Hin].
      * apply post_in_posts in Hin.
        by apply page_requests_filter in Hin as [_ ?].
      * by repeat (apply elem_of_cons in Hin as [Hin|Hin]; [done|]);
          apply elem_of_nil in Hin.
    + destruct Hrun as (-> & rq0 & Hrq0 & _).
      destruct n as [|n]; [by apply elem_of_nil in Hrq0|].
      rewrite run_events_emits, page_requests_S, page_request_0.
      eexists. split; [reflexivity|].
      intros rq Hin. apply post_in_posts in Hin.
      by apply page_requests_filter in Hin as [_ ?].
    + destruct Hrun as (-> & -> & _).
      rewrite run_events_emits, page_requests_S, page_request_0.
      eexists. split; [reflexivity|].
      intros rq Hin. apply post_in_posts in Hin.
      by apply page_requests_filter in Hin as [_ ?].
  - intros Hret.
    destruct (sync_run (S fuel) apiToken gte w2) as (n & Hrun).
    cbv zeta in Hrun. rewrite Hret in Hrun.
    by destruct Hrun as (_ & _ & allArticles & ->).
  - intros Hret. unfold createAllNodes in *.
    destruct (sync_run (S fuel) apiToken None w) as (n & Hrun).
    cbv zeta in Hrun. rewrite Hret in Hrun.
    by destruct Hrun as (_ & _ & allArticles & ->).
Qed.

(** C6.  On a webhook body with the event [content_item.deleted] and the
    payload id [x] the [updateNodes] handler returns after exactly one
    call, [model.delete(x)]: it posts no request. *)
Theorem C6_deletion_deletes_once (fuel : nat) (x : string)
    (apiToken : string) (w : World) :
  let webhookBody := {| event := "content_item.deleted";
                        payload := Some {| payload_id := x |} |} in
  let run := updateNodes formatISO fuel webhookBody apiToken w in
  run.1 = Return tt
  /\ run_events w run.2 = [EvDelete x]
  /\ posts_of (run_events w run.2) = [].
Proof.
  cbv zeta. rewrite updateNodes_delete. cbn [fst snd payload_id].
  rewrite emit_emits, run_events_emits. done.
Qed.

(** C10.  On a webhook body with the event [content_item.deleted],
    whatever its payload, the [updateNodes] handler calls neither
    [cache.get] nor [cache.set], and the cache, with the [lastSync]
    cursor in it, is left as it was. *)
Theorem C10_deletion_keeps_the_cursor (fuel : nat)
    (p : option WebhookPayload) (apiToken : string) (w : World) :
  let webhookBody := {| event := "content_item.deleted"; payload := p |} in
  let run := updateNodes formatISO fuel webhookBody apiToken w in
  cache run.2 = cache w
  /\ cache run.2 !! "lastSync" = cache w !! "lastSync"
  /\ (forall key, EvCacheGet key ∉ run_events w run.2)
  /\ (forall key value, EvCacheSet key value ∉ run_events w run.2).
Proof.
  cbv zeta. rewrite updateNodes_delete.
  destruct p as [p|]; cbn [fst snd].
  - rewrite emit_emits, run_events_emits.
    repeat split; try done; intros **;
      intros Hin; (apply elem_of_cons in Hin as [Hin|Hin]; [done|]);
      by apply elem_of_nil in Hin.
  - rewrite run_events_refl.
    repeat split; try done; intros **; apply not_elem_of_nil.
Qed.

End Orchestrator.

(** ** The connector on concrete worlds *)

(** C2 on an API that serves 150 articles: two requests, 150 items. *)
Lemma C2_fetch_of_150_articles :
  exists allArticles,
    fetchArticles 2 "token" None 0 no_articles (fresh_world (paged_api 150) 0)
    = (Return allArticles,
       emits (map EvPost (page_requests "token" None 0 (pages 150)))
         (fresh_world (paged_api 150) 0))
    /\ Z.of_nat (length (page_requests "token" None 0 (pages 150)))
       = Z.max 1 (ceil_div 150 100)
    /\ Z.of_nat (length (items allArticles)) = 150
    /\ total allArticles = 150.
Proof.
  apply (C2_paged_fetch "token" None 150 2 (fresh_world (paged_api 150) 0)).
  - intros k Hk. eexists. split; [reflexivity|]. split; [reflexivity|].
    cbn [items req_skip page_request]. rewrite repeat_length. lia.
  - vm_compute. lia.
Defined.

(** The aggregated [Error] for a response with two errors, the first with
    two locations. *)
Lemma C3_two_errors :
  let errors :=
    [ {| locations := [ {| column := 3; line := 2 |};
                        {| column := 9; line := 8 |} ];
         message := "Cannot query field" |};
      {| locations := [ {| column := 1; line := 7 |} ];
         message := "Unknown argument" |} ] in
  let w := fresh_world (fun _ => Errors errors) 0 in
  let rq := {| req_apiToken := "token"; req_skip := 0;
               req_changed_on_gte := None |} in
  exists msg,
    fetchArticles 1 "token" None 0 no_articles w
    = (Throw (Error msg), emit (EvPost rq) w)
    /\ enumerates msg errors.
Proof.
  cbv zeta.
  apply (C3_errors_are_enumerated "token" None 0 0 no_articles).
  - reflexivity.
  - repeat constructor; discriminate.
Defined.

(** C3.  A GraphQL response with k errors is to make the Fetcher throw an
    [Error] whose message enumerates the k errors.  The code misses the
    error that carries no location (the declared type allows an empty list
    of locations): [locations[0]] is read without a guard, and on a
    response with one such error the Fetcher throws a [TypeError], not an
    [Error] whose message enumerates the error. *)
Lemma C3_error_without_location :
  let errors := [ {| locations := []; message := "Syntax Error" |} ] in
  let w := fresh_world (failing_api []) 0 in
  let rq := {| req_apiToken := "token"; req_skip := 0;
               req_changed_on_gte := None |} in
  let run := fetchArticles 1 "token" None 0 no_articles w in
  graphql w rq = Errors errors
  /\ (1 <= length errors)%nat
  /\ run.1 = Throw TypeError
  /\ ~ exists msg, run.1 = Throw (Error msg) /\ enumerates msg errors.
Proof.
  cbv zeta. split; [reflexivity|]. split; [done|]. split; [reflexivity|].
  intros (msg & Hrun & _). discriminate Hrun.
Qed.

(** C4 on a full sync against an API that rejects the query. *)
Lemma C4_rejected_full_sync :
  let w := fresh_world (failing_api [ {| column := 1; line := 1 |} ]) 0 in
  let run := createAllNodes DateFns.formatISO 1 "token" w in
  aborted w run.1 run.2.
Proof.
  cbv zeta.
  apply (C4_errors_abort_the_sync DateFns.formatISO 1
           {| event := "content_item.published"; payload := None |} "token").
  - left. reflexivity.
  - exists {| req_apiToken := "token"; req_skip := 0;
              req_changed_on_gte := None |}.
    split; [|eexists; reflexivity].
    vm_compute. constructor.
Defined.

(** C5 on an incremental sync of a host whose cursor was written by an
    earlier sync. *)
Lemma C5_incremental_sync_after_full_sync :
  let webhookBody := {| event := "content_item.published"; payload := None |} in
  let w := at_time 1704070800000
             (createAllNodes DateFns.formatISO 1 "token"
                (fresh_world empty_api 1704067200000)).2 in
  let run := updateNodes DateFns.formatISO 1 webhookBody "token" w in
  let full := createAllNodes DateFns.formatISO 1 "token" w in
  (exists rest,
     run_events w run.2
     = EvCacheGet "lastSync"
         :: EvPost {| req_apiToken := "token"; req_skip := 0;
                      req_changed_on_gte := cache w !! "lastSync" |}
         :: rest
     /\ forall rq, EvPost rq ∈ rest ->
                   req_changed_on_gte rq = cache w !! "lastSync")
  /\ (run.1 = Return tt ->
      cache run.2
      = <["lastSync" := DateFns.formatISO (date_now w)]> (cache w))
  /\ (full.1 = Return tt ->
      cache full.2
      = <["lastSync" := DateFns.formatISO (date_now w)]> (cache w)).
Proof.
  cbv zeta.
  apply (C5_cursor_read_and_written DateFns.formatISO 0).
  cbn. discriminate.
Defined.

(** C5, as the spec words it, fails: the cursor is printed to the second,
    so a sync that ends in the same second as the one before it (here half
    a second later) writes the cursor that was there, and the new cursor is
    not strictly later than the prior one. *)
Lemma C5_cursor_not_strictly_later :
  let webhookBody := {| event := "content_item.published"; payload := None |} in
  let w := at_time 1704067200500
             (createAllNodes DateFns.formatISO 1 "token"
                (fresh_world empty_api 1704067200000)).2 in
  let run := updateNodes DateFns.formatISO 1 webhookBody "token" w in
  run.1 = Return tt
  /\ cache w !! "lastSync" = Some "2024-01-01T00:00:00Z"
  /\ cache run.2 !! "lastSync" = Some "2024-01-01T00:00:00Z"
  /\ ~ cursor_advanced w run.2.
Proof.
  cbv zeta. split; [reflexivity|]. split; [reflexivity|].
  split; [reflexivity|].
  intros Hadv. destruct (Hadv _ eq_refl) as (new & Hnew & Hlater).
  vm_compute in Hnew. injection Hnew as <-. discriminate Hlater.
Qed.

(** ** Further properties of the Content Flattener *)

Lemma from_last_assets_none (cs : list Content) :
  existsb is_assets cs = false -> from_last_assets cs = cs.
Proof.
  destruct cs as [|c cs]; [done|]. cbn [existsb from_last_assets].
  intros [_ ->]%orb_false_elim. done.
Qed.

Lemma body_step_html (body : string) (c : Content) :
  body_step body c
  = (if is_assets c then EmptyString else body) +:+ block_html c.
Proof.
  destruct c as [its|id code language|id html|id]; cbn [body_step is_assets block_html].
  - by rewrite fold_img_step.
  - reflexivity.
  - reflexivity.
  - by rewrite str_app_nil_r.
Qed.

Lemma fold_body_step (cs : list Content) :
  forall acc : string,
    fold_left body_step cs acc
    = (if existsb is_assets cs then EmptyString else acc)
        +:+ join (map block_html (from_last_assets cs)).
Proof.
  induction cs as [|c cs IH]; intros acc.
  - cbn. by rewrite str_app_nil_r.
  - cbn [fold_left existsb from_last_assets]. rewrite IH.
    destruct (existsb is_assets cs) eqn:Hlater.
    + by rewrite orb_true_r.
    + rewrite orb_false_r, (from_last_assets_none cs Hlater).
      cbn [map]. by rewrite join_cons, body_step_html, str_app_assoc.
Qed.

(** X1.  The body of an article is made of the blocks from its last asset
    group on (of all its blocks when it has no asset group): it is what
    these blocks contribute, one after the other, where an asset group
    contributes its [<img>] tags, a code block its wrapper, a text block
    its HTML and a block of another shape nothing. *)
Theorem X1_flatten_from_last_assets (cs : list Content) :
  flatten cs = join (map block_html (from_last_assets cs)).
Proof.
  unfold flatten. rewrite fold_body_step.
  by destruct (existsb is_assets cs).
Qed.

(** X2.  Whatever blocks come before an asset group are lost: they leave no
    trace in the body. *)
Theorem X2_blocks_before_assets_are_lost (cs : list Content)
    (its : list AssetItem) (rest : list Content) :
  flatten (cs ++ Assets its :: rest) = flatten (Assets its :: rest).
Proof. unfold flatten. by rewrite fold_left_app. Qed.

(** ** Further properties of the GraphQL Fetcher *)

Section FetcherRuns.

Variables (apiToken : string) (updatedGte : option string).

(** What a run that returns has gathered. *)
Lemma fetch_gathers (fuel : nat) :
  forall (skip : Z) (allArticles : Articles) (w : World),
  exists n : nat,
    let rqs := page_requests apiToken updatedGte skip n in
    let run := fetchArticles fuel apiToken updatedGte skip allArticles w in
    run.2 = emits (map EvPost rqs) w /\
    forall allArticles',
      run.1 = Return allArticles' ->
      items allArticles'
      = items allArticles
          ++ concat (map (fun rq => answer_items (graphql w rq)) rqs)
      /\ (total allArticles <> 0 -> total allArticles' = total allArticles).
Proof.
  induction fuel as [|fuel IH]; intros skip allArticles w.
  - exists 0%nat. cbn. split; [by rewrite emits_nil|]. intros ? [=].
  - set (rq := {| req_apiToken := apiToken; req_skip := skip;
                  req_changed_on_gte := updatedGte |}).
    assert (page_request apiToken updatedGte skip 0 = rq) as Hrq
      by apply page_request_0.
    cbv zeta. rewrite fetch_step. fold rq.
    destruct (graphql w rq) as [page|errors] eqn:Hanswer.
    + destruct (more_pages (add_page allArticles page)) eqn:Hmore.
      * destruct (IH (skip + 100) (add_page allArticles page)
                     (emit (EvPost rq) w)) as (n & Hw & Hres).
        cbv zeta in Hw, Hres. exists (S n).
        rewrite page_requests_S, Hrq. split.
        { rewrite Hw, emit_emits, emits_emits. reflexivity. }
        intros allArticles' Hret.
        destruct (Hres allArticles' Hret) as (Hitems & Htotal).
        split.
        -- rewrite Hitems. cbn [map concat items add_page graphql emit].
           rewrite Hanswer. cbn [answer_items]. by rewrite <- app_assoc.
        -- intros Hnz. rewrite Htotal; unfold add_page; cbn [total];
             destruct (Z.eqb_spec (total allArticles) 0); done.
      * exists 1%nat. rewrite page_requests_S, Hrq. cbn [fst snd].
        split; [done|]. intros allArticles' [= <-].
        cbn [map concat page_requests seq]. rewrite Hanswer.
        cbn [answer_items add_page items total]. rewrite app_nil_r.
        split; [done|]. intros Hnz.
        by destruct (Z.eqb_spec (total allArticles) 0).
    + exists 1%nat. rewrite page_requests_S, Hrq. cbn [fst snd].
      split; [done|]. intros ? [=].
Qed.

(** X3.  When the Fetcher returns, the list it has gathered is the list it
    started from followed by the items of every page it received, page
    after page in the order of the requests: no page is dropped, repeated
    or reordered. *)
Theorem X3_fetch_keeps_every_page (fuel : nat) (skip : Z)
    (allArticles : Articles) (w : World) (allArticles' : Articles) :
  let run := fetchArticles fuel apiToken updatedGte skip allArticles w in
  run.1 = Return allArticles' ->
  exists n : nat,
    let rqs := page_requests apiToken updatedGte skip n in
    run_events w run.2 = map EvPost rqs
    /\ items allArticles'
       = items allArticles
           ++ concat (map (fun rq => answer_items (graphql w rq)) rqs).
Proof.
  cbv zeta. intros Hret.
  destruct (fetch_gathers fuel skip allArticles w) as (n & Hw & Hres).
  cbv zeta in Hw, Hres. exists n. rewrite Hw, run_events_emits.
  split; [done|]. by destruct (Hres allArticles' Hret).
Qed.

(** X4.  The total the Fetcher works with is the one the first page
    reports: whatever totals the later pages report, the total recorded
    when the Fetcher returns is the first page's. *)
Theorem X4_total_of_the_first_page (fuel : nat) (w : World)
    (allArticles' : Articles) :
  let run := fetchArticles fuel apiToken updatedGte 0 no_articles w in
  run.1 = Return allArticles' ->
  exists page,
    graphql w {| req_apiToken := apiToken; req_skip := 0;
                 req_changed_on_gte := updatedGte |} = Data page
    /\ total allArticles' = total page.
Proof.
  cbv zeta. destruct fuel as [|fuel]; [intros [=]|].
  rewrite fetch_step. cbv zeta.
  destruct (graphql w _) as [page|errors] eqn:Hanswer; [|intros [=]].
  intros Hret. exists page. split; [done|].
  assert (total (add_page no_articles page) = total page) as Hfirst
    by reflexivity.
  destruct (more_pages (add_page no_articles page)) eqn:Hmore.
  - destruct (fetch_gathers fuel (0 + 100) (add_page no_articles page)
                (emit (EvPost {| req_apiToken := apiToken; req_skip := 0;
                                 req_changed_on_gte := updatedGte |}) w))
      as (n & _ & Hres).
    cbv zeta in Hres. destruct (Hres allArticles' Hret) as (_ & Htotal).
    unfold more_pages in Hmore. rewrite Hfirst in Hmore, Htotal.
    apply Htotal. apply Z.gtb_lt in Hmore. clear -Hmore. lia.
  - by injection Hret as <-.
Qed.

(** X5.  The Fetcher returns only with a complete list, whatever the API
    answers: the total it has recorded does not exceed the number of items
    it has gathered. *)
Theorem X5_fetch_returns_complete (fuel : nat) (skip : Z)
    (allArticles : Articles) (w : World) (allArticles' : Articles) :
  let run := fetchArticles fuel apiToken updatedGte skip allArticles w in
  run.1 = Return allArticles' ->
  total allArticles' <= Z.of_nat (length (items allArticles')).
Proof.
  cbv zeta. intros Hret.
  destruct (fetch_run apiToken updatedGte fuel skip allArticles w)
    as (n & _ & Hc).
  cbv zeta in Hc. rewrite Hret in Hc.
  destruct Hc as (_ & _ & Hstop). unfold more_pages in Hstop. lia.
Qed.

(** X6.  Against an API that reports a positive total and serves empty
    pages the Fetcher never returns: however deep the recursion is allowed
    to go, it is still posting requests, one per level. *)
Theorem X6_fetch_does_not_return_on_empty_pages (fuel : nat) :
  forall (skip : Z) (allArticles : Articles) (w : World),
    (forall rq, exists page,
        graphql w rq = Data page /\ items page = [] /\ 0 < total page) ->
    items allArticles = [] ->
    0 <= total allArticles ->
    let run := fetchArticles fuel apiToken updatedGte skip allArticles w in
    run.1 = OutOfFuel
    /\ run_events w run.2
       = map EvPost (page_requests apiToken updatedGte skip fuel).
Proof.
  induction fuel as [|fuel IH]; intros skip allArticles w Hapi Hitems Htotal.
  - cbn. by rewrite run_events_refl.
  - cbv zeta. rewrite fetch_step. cbv zeta.
    set (rq := {| req_apiToken := apiToken; req_skip := skip;
                  req_changed_on_gte := updatedGte |}).
    destruct (Hapi rq) as (page & Hanswer & Hempty & Hpos).
    rewrite Hanswer.
    assert (items (add_page allArticles page) = []) as Hitems'
      by (unfold add_page; cbn [items]; by rewrite Hitems, Hempty).
    assert (0 < total (add_page allArticles page)) as Htotal'
      by (unfold add_page; cbn [total];
          destruct (Z.eqb_spec (total allArticles) 0); lia).
    assert (more_pages (add_page allArticles page) = true) as ->
      by (unfold more_pages; rewrite Hitems'; apply Z.gtb_lt; exact Htotal').
    destruct (IH (skip + 100) (add_page allArticles page)
                 (emit (EvPost rq) w) Hapi Hitems' ltac:(lia))
      as (Hout & Hevs).
    split; [exact Hout|].
    destruct (fetch_run apiToken updatedGte fuel (skip + 100)
                (add_page allArticles page) (emit (EvPost rq) w))
      as (n & Hw & Hc).
    cbv zeta in Hw, Hc. rewrite Hout in Hc. destruct Hc as (-> & _).
    rewrite Hw, emit_emits, emits_emits, run_events_emits.
    by rewrite page_requests_S, page_request_0.
Qed.

(** X7.  The Fetcher stops at the first error list: when a request of the
    run was answered with an error list, that request is the last call of
    the run (nothing is retried and no further page is requested), every
    request before it was answered with a data page, and the run throws
    what is built from that error list. *)
Theorem X7_fetch_stops_at_the_first_error (fuel : nat) (skip : Z)
    (allArticles : Articles) (w : World) (rq : Request)
    (errors : list GraphQLError) :
  let run := fetchArticles fuel apiToken updatedGte skip allArticles w in
  EvPost rq ∈ run_events w run.2 ->
  graphql w rq = Errors errors ->
  run.1 = Throw (errors_exn errors)
  /\ exists init,
       run_events w run.2 = map EvPost (init ++ [rq])
       /\ Forall (is_data w) init.
Proof.
  cbv zeta. intros Hin Hanswer.
  assert (forall rqs, Forall (is_data w) rqs -> rq ∈ rqs -> False) as Hdata.
  { intros rqs Hall Hrq. rewrite Forall_forall in Hall.
    destruct (Hall rq Hrq) as [page Hpage]. congruence. }
  destruct (fetch_run apiToken updatedGte fuel skip allArticles w)
    as (n & Hw & Hc).
  cbv zeta in Hw, Hc. rewrite Hw, run_events_emits in Hin |- *.
  apply list_elem_of_fmap in Hin as (rq' & [= <-] & Hin).
  destruct (fetchArticles fuel apiToken updatedGte skip allArticles w).1
    as [allArticles'|e|].
  - exfalso. destruct Hc as (_ & Hall & _). exact (Hdata _ Hall Hin).
  - destruct Hc as (init & last & errors' & Hrqs & Hall & Herr & ->).
    rewrite Hrqs in Hin |- *.
    apply elem_of_app in Hin as [Hin|Hin]; [exfalso; exact (Hdata _ Hall Hin)|].
    apply list_elem_of_singleton in Hin as ->.
    rewrite Hanswer in Herr. injection Herr as <-.
    split; [done|]. by exists init.
  - exfalso. destruct Hc as (_ & Hall). exact (Hdata _ Hall Hin).
Qed.

End FetcherRuns.

(** ** Further properties of the Sync Orchestrator and the handlers *)

Section OrchestratorRuns.

Variable formatISO : Z -> string.

(** X8.  A sync that returns has made these calls and no other: its
    requests, then one [model.create] with one node per article of the
    pages received, in the order received, then one [cache.set] of
    [lastSync] to [formatISO] of the clock's reading. *)
Theorem X8_calls_of_a_sync_that_returns (fuel : nat) (apiToken : string)
    (updatedGte : option string) (w : World) :
  let run := syncArticles formatISO fuel apiToken updatedGte w in
  run.1 = Return tt ->
  exists n : nat,
    let rqs := page_requests apiToken updatedGte 0 n in
    run_events w run.2
    = map EvPost rqs
        ++ [EvCreate
              (map article_node
                 (concat (map (fun rq => answer_items (graphql w rq)) rqs)));
            EvCacheSet "lastSync" (formatISO (date_now w))].
Proof.
  cbv zeta. rewrite sync_after_fetch. cbv zeta.
  destruct (fetch_gathers apiToken updatedGte fuel 0 no_articles w)
    as (n & Hw & Hres).
  cbv zeta in Hw, Hres.
  destruct (fetchArticles fuel apiToken updatedGte 0 no_articles w)
    as [[allArticles|e|] w1]; cbn [fst snd] in *; [|intros [=]..].
  intros _. exists n. subst w1.
  destruct (Hres allArticles eq_refl) as (-> & _).
  rewrite emits_emits, store_emits, run_events_store_emits. done.
Qed.

(** X9.  Whatever the API answers and however the sync ends, a sync only
    posts requests that carry the token and the filter it was given, calls
    [model.create] and writes the key [lastSync]: it never calls
    [model.delete], never reads the cache and never writes another key. *)
Theorem X9_calls_of_every_sync (fuel : nat) (apiToken : string)
    (updatedGte : option string) (w : World) :
  Forall (sync_call apiToken updatedGte)
    (run_events w (syncArticles formatISO fuel apiToken updatedGte w).2).
Proof.
  assert (forall n, Forall (sync_call apiToken updatedGte)
            (map EvPost (page_requests apiToken updatedGte 0 n))) as Hposts.
  { intros n. apply Forall_fmap, Forall_forall. intros rq Hin.
    exact (page_requests_filter _ _ _ _ _ Hin). }
  destruct (sync_run formatISO fuel apiToken updatedGte w) as (n & Hrun).
  cbv zeta in Hrun.
  destruct (syncArticles formatISO fuel apiToken updatedGte w)
    as [[[]|e|] w']; cbn [fst snd] in *.
  - destruct Hrun as (_ & _ & allArticles & ->).
    rewrite store_emits, run_events_store_emits.
    apply Forall_app. split; [apply Hposts|].
    repeat constructor.
  - destruct Hrun as (-> & _). rewrite run_events_emits. apply Hposts.
  - destruct Hrun as (_ & -> & _). rewrite run_events_emits. apply Hposts.
Qed.

(** X10.  Every webhook event other than [content_item.deleted] starts the
    same incremental sync: the name of the event and the payload, present
    or not, make no difference to what the handler does. *)
Theorem X10_other_events_sync_alike (fuel : nat)
    (webhookBody webhookBody' : WebhookBody) (apiToken : string) (w : World) :
  event webhookBody <> "content_item.deleted" ->
  event webhookBody' <> "content_item.deleted" ->
  updateNodes formatISO fuel webhookBody apiToken w
  = updateNodes formatISO fuel webhookBody' apiToken w.
Proof.
  intros Hevent Hevent'.
  by rewrite (updateNodes_sync _ _ _ _ _ Hevent),
             (updateNodes_sync _ _ _ _ _ Hevent').
Qed.

(** The first two calls of an incremental sync. *)
Lemma update_first_calls (fuel : nat) (webhookBody : WebhookBody)
    (apiToken : string) (w : World) :
  event webhookBody <> "content_item.deleted" ->
  exists rest,
    run_events w (updateNodes formatISO (S fuel) webhookBody apiToken w).2
    = EvCacheGet "lastSync"
        :: EvPost {| req_apiToken := apiToken; req_skip := 0;
                     req_changed_on_gte := cache w !! "lastSync" |}
        :: rest.
Proof.
  intros Hevent. rewrite (updateNodes_sync _ _ _ _ _ Hevent).
  set (w2 := emit (EvCacheGet "lastSync") w).
  set (gte := cache w !! "lastSync").
  rewrite (run_events_after _ _ _
             (sync_trace formatISO (S fuel) apiToken gte w2)).
  fold w2.
  destruct (sync_run formatISO (S fuel) apiToken gte w2) as (n & Hrun).
  cbv zeta in Hrun.
  destruct (syncArticles formatISO (S fuel) apiToken gte w2)
    as [[[]|e|] w']; cbn [fst snd] in *.
  - destruct Hrun as (Hn & _ & allArticles & ->).
    destruct n as [|n]; [lia|].
    rewrite store_emits, run_events_store_emits, page_requests_S,
      page_request_0.
    eexists. reflexivity.
  - destruct Hrun as (-> & rq0 & Hrq0 & _).
    destruct n as [|n]; [by apply elem_of_nil in Hrq0|].
    rewrite run_events_emits, page_requests_S, page_request_0.
    eexists. reflexivity.
  - destruct Hrun as (-> & -> & _).
    rewrite run_events_emits, page_requests_S, page_request_0.
    eexists. reflexivity.
Qed.

(** X11.  The cursor goes round through the cache: after a full sync that
    returned at the clock reading [t], the next incremental sync, whenever
    it runs and with whatever token, asks for the articles changed since
    [formatISO t]. *)
Theorem X11_incremental_sync_after_full_sync (fuel fuel' : nat)
    (apiToken apiToken' : string) (webhookBody : WebhookBody)
    (later : Z) (w : World) :
  let full := createAllNodes formatISO fuel apiToken w in
  let w1 := at_time later full.2 in
  let run := updateNodes formatISO (S fuel') webhookBody apiToken' w1 in
  full.1 = Return tt ->
  event webhookBody <> "content_item.deleted" ->
  exists rest,
    run_events w1 run.2
    = EvCacheGet "lastSync"
        :: EvPost {| req_apiToken := apiToken'; req_skip := 0;
                     req_changed_on_gte := Some (formatISO (date_now w)) |}
        :: rest.
Proof.
  cbv zeta. intros Hret Hevent.
  destruct (update_first_calls fuel' webhookBody apiToken'
              (at_time later (createAllNodes formatISO fuel apiToken w).2)
              Hevent) as (rest & Hcalls).
  exists rest. rewrite Hcalls.
  unfold createAllNodes in *.
  destruct (sync_run formatISO fuel apiToken None w) as (n & Hrun).
  cbv zeta in Hrun. rewrite Hret in Hrun.
  destruct Hrun as (_ & _ & allArticles & ->).
  cbn [cache at_time store emits]. by rewrite lookup_insert_eq.
Qed.

(** X12.  With no cursor in the cache an incremental sync filters
    nothing: after reading the cache it does what a full sync does. *)
Theorem X12_incremental_sync_without_cursor (fuel : nat)
    (webhookBody : WebhookBody) (apiToken : string) (w : World) :
  event webhookBody <> "content_item.deleted" ->
  cache w !! "lastSync" = None ->
  updateNodes formatISO fuel webhookBody apiToken w
  = createAllNodes formatISO fuel apiToken (emit (EvCacheGet "lastSync") w).
Proof.
  intros Hevent Hcursor.
  by rewrite (updateNodes_sync _ _ _ _ _ Hevent), Hcursor.
Qed.

End OrchestratorRuns.

(** ** The further properties on concrete worlds *)

(** X3 on the API with one article. *)
Lemma X3_one_article :
  let w := fresh_world one_article_api 0 in
  let allArticles' := {| items := [sample_article]; total := 1 |} in
  exists n : nat,
    let rqs := page_requests "token" None 0 n in
    run_events w (fetchArticles 3 "token" None 0 no_articles w).2
    = map EvPost rqs
    /\ items allArticles'
       = items no_articles
           ++ concat (map (fun rq => answer_items (graphql w rq)) rqs).
Proof.
  cbv zeta.
  apply (X3_fetch_keeps_every_page "token" None 3 0 no_articles
           (fresh_world one_article_api 0)).
  reflexivity.
Defined.

(** X4 on the API with one article, whose later pages report 7. *)
Lemma X4_one_article :
  let w := fresh_world one_article_api 0 in
  let allArticles' := {| items := [sample_article]; total := 1 |} in
  exists page,
    graphql w {| req_apiToken := "token"; req_skip := 0;
                 req_changed_on_gte := None |} = Data page
    /\ total allArticles' = total page.
Proof.
  cbv zeta.
  apply (X4_total_of_the_first_page "token" None 3
           (fresh_world one_article_api 0)).
  reflexivity.
Defined.

(** X5 on the API that serves 150 articles. *)
Lemma X5_150_articles :
  let allArticles' :=
    {| items := repeat sample_article 150; total := 150 |} in
  total allArticles' <= Z.of_nat (length (items allArticles')).
Proof.
  cbv zeta.
  apply (X5_fetch_returns_complete "token" None 2 0 no_articles
           (fresh_world (paged_api 150) 0)).
  reflexivity.
Defined.

(** X6 on an API that reports five articles and serves none. *)
Lemma X6_five_articles_never_served :
  let w := fresh_world (stalled_api 5) 0 in
  let run := fetchArticles 4 "token" None 0 no_articles w in
  run.1 = OutOfFuel
  /\ run_events w run.2 = map EvPost (page_requests "token" None 0 4).
Proof.
  cbv zeta.
  apply (X6_fetch_does_not_return_on_empty_pages "token" None 4 0 no_articles
           (fresh_world (stalled_api 5) 0)).
  - intros rq. eexists. split; [reflexivity|]. split; [reflexivity|].
    cbn. lia.
  - reflexivity.
  - cbn. lia.
Defined.

(** X7 on an API that rejects the query. *)
Lemma X7_rejected_query :
  let errors := [ {| locations := [ {| column := 1; line := 1 |} ];
                     message := "Syntax Error" |} ] in
  let rq := {| req_apiToken := "token"; req_skip := 0;
               req_changed_on_gte := None |} in
  let w := fresh_world (failing_api [ {| column := 1; line := 1 |} ]) 0 in
  let run := fetchArticles 2 "token" None 0 no_articles w in
  run.1 = Throw (errors_exn errors)
  /\ exists init,
       run_events w run.2 = map EvPost (init ++ [rq])
       /\ Forall (is_data w) init.
Proof.
  cbv zeta.
  apply (X7_fetch_stops_at_the_first_error "token" None 2 0 no_articles
           (fresh_world (failing_api [ {| column := 1; line := 1 |} ]) 0)).
  - vm_compute. constructor.
  - reflexivity.
Defined.

(** X8 on a full sync of the API with one article. *)
Lemma X8_sync_of_one_article :
  let w := fresh_world one_article_api 1704067200000 in
  exists n : nat,
    let rqs := page_requests "token" None 0 n in
    run_events w (syncArticles DateFns.formatISO 3 "token" None w).2
    = map EvPost rqs
        ++ [EvCreate
              (map article_node
                 (concat (map (fun rq => answer_items (graphql w rq)) rqs)));
            EvCacheSet "lastSync" (DateFns.formatISO (date_now w))].
Proof.
  cbv zeta.
  apply (X8_calls_of_a_sync_that_returns DateFns.formatISO 3 "token" None
           (fresh_world one_article_api 1704067200000)).
  reflexivity.
Defined.

(** X10 on two events that are not deletions, one without a payload. *)
Lemma X10_published_and_archived :
  let w := fresh_world one_article_api 1704067200000 in
  updateNodes DateFns.formatISO 3
    {| event := "content_item.published"; payload := None |} "token" w
  = updateNodes DateFns.formatISO 3
      {| event := "content_item.archived";
         payload := Some {| payload_id := "abc" |} |} "token" w.
Proof.
  cbv zeta.
  apply (X10_other_events_sync_alike DateFns.formatISO 3).
  - cbn. discriminate.
  - cbn. discriminate.
Defined.

(** X11 on a full sync followed, an hour later, by an incremental sync. *)
Lemma X11_one_hour_later :
  let w := fresh_world one_article_api 1704067200000 in
  let w1 := at_time 1704070800000
              (createAllNodes DateFns.formatISO 3 "token" w).2 in
  exists rest,
    run_events w1
      (updateNodes DateFns.formatISO 1
         {| event := "content_item.published"; payload := None |}
         "other-token" w1).2
    = EvCacheGet "lastSync"
        :: EvPost {| req_apiToken := "other-token"; req_skip := 0;
                     req_changed_on_gte :=
                       Some (DateFns.formatISO (date_now w)) |}
        :: rest.
Proof.
  cbv zeta.
  apply (X11_incremental_sync_after_full_sync DateFns.formatISO 3 0
           "token" "other-token"
           {| event := "content_item.published"; payload := None |}
           1704070800000 (fresh_world one_article_api 1704067200000)).
  - reflexivity.
  - cbn. discriminate.
Defined.

(** X12 on a host whose cache is empty. *)
Lemma X12_first_sync_is_incremental :
  let w := fresh_world one_article_api 1704067200000 in
  updateNodes DateFns.formatISO 3
    {| event := "content_item.published"; payload := None |} "token" w
  = createAllNodes DateFns.formatISO 3 "token"
      (emit (EvCacheGet "lastSync") w).
Proof.
  cbv zeta.
  apply (X12_incremental_sync_without_cursor DateFns.formatISO 3).
  - cbn. discriminate.
  - reflexivity.
Defined.
